(** * py-agent-2d: the tactical decision core

    A shallow embedding of [src/strategy/formation_strategy.py]
    (class [FormationStrategy]) and of
    [src/decision_makers/decision_maker.py] (class [DecisionMaker]),
    followed by the properties of the situation classifier, the formation
    selector, the legality clamp, the accessors and the dispatcher.

    Conventions of the embedding.
    - Python [int] values (reach steps, uniform numbers) are [Z].
    - Python [float] values (coordinates) are exact rationals [Q]; the code
      only compares them, takes [min] and subtracts the literal [0.5], so the
      embedding keeps the order structure and leaves rounding and the
      IEEE special values out.  Statements about coordinates use [Qle] and
      [Qeq].
    - A Python exception is a value [Raise e] of the [result] type.
    - [dict] objects are [gmap]s; the objects that are shared between the
      strategy and its formation set live in an explicit object store. *)

From Stdlib Require Import ZArith QArith Qminmax Lqa Lia List Permutation Sorted.
From stdpp Require Import base gmap strings sorting functions.

Open Scope Z_scope.

(** ** Python values and exceptions *)

Inductive PyExc : Type :=
| KeyError
| IndexError
| TypeError
| AttributeError.

Inductive result (A : Type) : Type :=
| Ok (a : A)
| Raise (e : PyExc).

Arguments Ok {A} a.
Arguments Raise {A} e.

Definition bind {A B : Type} (m : result A) (k : A -> result B) : result B :=
  match m with
  | Ok a => k a
  | Raise e => Raise e
  end.

Notation "'let*' v ':=' m 'in' k" := (bind m (fun v => k))
  (at level 10, v name, m at level 100, k at level 200, only parsing).

(** [a < b] on floats. *)
Definition Qltb (a b : Q) : bool := negb (Qle_bool b a).

(** The builtin [min(a, b)]: the first argument is kept unless the second is
    strictly smaller. *)
Definition py_min (a b : Q) : Q := if Qltb b a then b else a.

(** The builtin [min] on integers, with two and with three arguments. *)
Definition py_min2 (a b : Z) : Z := if b <? a then b else a.
Definition py_min3 (a b c : Z) : Z := py_min2 (py_min2 a b) c.

(** ** Geometry and protocol types *)

(** [pyrusgeom.Vector2D]: a mutable pair of floats; the methods [x()] and
    [y()] read the attributes [_x] and [_y]. *)
Record Vector2D : Type := mkVector2D { _x : Q; _y : Q }.

(** [service_pb2] is generated from the protocol file and is not part of the
    sources.  The members of [GameModeType] that the code names are
    constructors here; every other member of the enumeration is
    [OtherGameMode n]. *)
Inductive GameModeType : Type :=
| BeforeKickOff
| PlayOn
| KickIn_
| CornerKick_
| GoalKick_
| AfterGoal_
| PenaltyKick_
| GoalieCatch_
| OtherGameMode (n : nat).

Inductive Side : Type :=
| UNKNOWN
| LEFT
| RIGHT.

#[global] Instance GameModeType_eq_dec : EqDecision GameModeType.
Proof. solve_decision. Defined.

#[global] Instance Side_eq_dec : EqDecision Side.
Proof. solve_decision. Defined.

Record RpcVector2D : Type := { x : Q; y : Q }.

Record Ball : Type := { position : RpcVector2D; velocity : RpcVector2D }.

Record InterceptTable : Type := {
  first_teammate_reach_steps : Z;
  first_opponent_reach_steps : Z;
  self_reach_steps : Z
}.

Record Self : Type := { uniform_number : Z; is_goalie : bool }.

Record WorldModel : Type := {
  intercept_table : InterceptTable;
  ball : Ball;
  game_mode_type : GameModeType;
  game_mode_side : Side;
  our_side : Side;
  self : Self;
  offside_line_x : Q;
  is_penalty_kick_mode : bool
}.

(** ** Situations and formation sets *)

Inductive Situation : Type :=
| OurSetPlay_Situation
| OppSetPlay_Situation
| Defense_Situation
| Offense_Situation
| PenaltyKick_Situation.

#[global] Instance Situation_eq_dec : EqDecision Situation.
Proof. solve_decision. Defined.

(** Modelled from the spec: class [FormationFile]
    ([src/strategy/formation_file.py] is not among the sources).  A formation
    definition owns a table from roster slots to positions; [update] recomputes
    the table from the predicted ball point by a data-driven rule that may
    also read the previous table, and [get_poses] hands out the table. *)
Record FormationFile : Type := {
  ff_rule : Vector2D -> gmap Z Vector2D -> gmap Z Vector2D;
  ff_poses : gmap Z Vector2D
}.

Definition FormationFile_update (ball_pos : Vector2D) (f : FormationFile)
  : FormationFile :=
  {| ff_rule := ff_rule f; ff_poses := ff_rule f ball_pos (ff_poses f) |}.

Definition FormationFile_get_poses (f : FormationFile) : gmap Z Vector2D :=
  ff_poses f.

(** A [FormationFile] object is identified by the path it was built from. *)
Definition FormationFileRef : Type := string.

(** Class [Formation]: eight references to formation definitions. *)
Record Formation : Type := {
  before_kick_off_formation : FormationFileRef;
  defense_formation : FormationFileRef;
  offense_formation : FormationFileRef;
  goalie_kick_opp_formation : FormationFileRef;
  goalie_kick_our_formation : FormationFileRef;
  kickin_our_formation : FormationFileRef;
  setplay_opp_formation : FormationFileRef;
  setplay_our_formation : FormationFileRef
}.

(** [Formation.__init__(path, logger)]. *)
Definition Formation_init (path : string) : Formation := {|
  before_kick_off_formation := path +:+ "/before-kick-off.conf";
  defense_formation := path +:+ "/defense-formation.conf";
  offense_formation := path +:+ "/offense-formation.conf";
  goalie_kick_opp_formation := path +:+ "/goalie-kick-opp-formation.conf";
  goalie_kick_our_formation := path +:+ "/goalie-kick-our-formation.conf";
  kickin_our_formation := path +:+ "/kickin-our-formation.conf";
  setplay_opp_formation := path +:+ "/setplay-opp-formation.conf";
  setplay_our_formation := path +:+ "/setplay-our-formation.conf"
|}.

(** The eight formation definitions of a formation set. *)
Definition formation_files (F : Formation) : list FormationFileRef :=
  [ before_kick_off_formation F; defense_formation F; offense_formation F;
    goalie_kick_opp_formation F; goalie_kick_our_formation F;
    kickin_our_formation F; setplay_opp_formation F; setplay_our_formation F ].

(** ** The position table

    [update] stores the dictionary returned by the formation definition.  The
    constructor stores the value of a set comprehension over pairs (line 74 of
    [formation_strategy.py]), which is a Python [set], not a [dict]. *)
Inductive Poses : Type :=
| PosesSet (s : list (Z * Vector2D))
| PosesDict (d : gmap Z Vector2D).

(** [range(n)]. *)
Definition range (n : nat) : list Z := map Z.of_nat (seq 0 n).

(** [<=] on floats is decidable; [list.sort()] on floats is a stable merge
    sort by [<=]. *)
#[global] Instance Qle_dec : RelDecision Qle :=
  fun a b =>
    match Qlt_le_dec b a with
    | left H => right (Qlt_not_le b a H)
    | right H => left H
    end.

Definition py_sort (l : list Q) : list Q := merge_sort Qle l.

(** [l[i]] on a list. *)
Definition index {A : Type} (l : list A) (i : nat) : result A :=
  match l !! i with
  | Some v => Ok v
  | None => Raise IndexError
  end.

(** [d[k]] on a dictionary. *)
Definition getitem {K : Type} `{Countable K} {A : Type} (d : gmap K A) (k : K)
  : result A :=
  match d !! k with
  | Some v => Ok v
  | None => Raise KeyError
  end.

(** [pos._x = min(pos.x(), bound)]: the assignment writes [_x] only. *)
Definition clamp_x (bound : Q) (pos : Vector2D) : Vector2D :=
  {| _x := py_min (_x pos) bound; _y := _y pos |}.

(** ** Class [FormationStrategy] *)

(** The attributes of the object, and [objects]: the store of the
    [FormationFile] objects that the formation sets and
    [current_formation_file] refer to. *)
Record FormationStrategy : Type := {
  formations : gmap string Formation;
  selected_formation_name : string;
  _poses : Poses;
  current_situation : Situation;
  current_formation_file : FormationFileRef;
  objects : FormationFileRef -> FormationFile
}.

Definition set_selected_formation_name (v : string) (this : FormationStrategy)
  : FormationStrategy :=
  {| formations := formations this; selected_formation_name := v;
     _poses := _poses this; current_situation := current_situation this;
     current_formation_file := current_formation_file this;
     objects := objects this |}.

Definition set_current_situation (v : Situation) (this : FormationStrategy)
  : FormationStrategy :=
  {| formations := formations this;
     selected_formation_name := selected_formation_name this;
     _poses := _poses this; current_situation := v;
     current_formation_file := current_formation_file this;
     objects := objects this |}.

Definition set_current_formation_file (v : FormationFileRef)
  (this : FormationStrategy) : FormationStrategy :=
  {| formations := formations this;
     selected_formation_name := selected_formation_name this;
     _poses := _poses this; current_situation := current_situation this;
     current_formation_file := v; objects := objects this |}.

(** [_read_formations]: three entries are added to [self.formations]. *)
Definition _read_formations (fs : gmap string Formation)
  : gmap string Formation :=
  <["4-3-3-helios-base" := Formation_init "src/formations/4-3-3-helios-base"]>
    (<["4-3-3-cyrus-base" := Formation_init "src/formations/4-3-3-cyrus-base"]>
       (<["4-3-3" := Formation_init "src/formations/4-3-3"]> fs)).

(** [_set_formation(wm)]: the name assigned to [selected_formation_name];
    the argument is not read ([__init__] passes [None]). *)
Definition _set_formation (wm : option WorldModel) : string :=
  "4-3-3-cyrus-base".

(** [_get_current_formation]: [self.formations[self.selected_formation_name]]. *)
Definition _get_current_formation (this : FormationStrategy)
  : result Formation :=
  getitem (formations this) (selected_formation_name this).

Section Strategy.

(** [pyrusgeom.soccer_math.inertia_n_step_point(pos, vel, n_step, decay)] and
    the constructor [FormationFile(path, logger)], which reads a
    configuration file, are collaborators of the class. *)
Variable inertia_n_step_point : Vector2D -> Vector2D -> Z -> Q -> Vector2D.
Variable FormationFile_init : string -> FormationFile.

(** [FormationStrategy.__init__] (lines 67-76).  Every [FormationFile] object
    of the three formation sets is in the store in the state its constructor
    leaves it in.  The set comprehension of line 74 hashes its pairs;
    [Vector2D] objects hash by identity, so it yields eleven pairs.  The call
    of [_get_current_formation] in line 76 reads the two attributes that are
    set by then. *)
Definition FormationStrategy_init : result FormationStrategy :=
  let fs := _read_formations ∅ in
  let name := _set_formation None in
  let poses := PosesSet (map (fun i => (i, mkVector2D 0 0)) (range 11)) in
  let* F := getitem fs name in
  Ok {| formations := fs; selected_formation_name := name;
        _poses := poses; current_situation := Offense_Situation;
        current_formation_file := offense_formation F;
        objects := FormationFile_init |}.

(** Lines 97-103 of [update]: the predicted ball point. *)
Definition predicted_ball (wm : WorldModel) : Vector2D :=
  let tm_min := first_teammate_reach_steps (intercept_table wm) in
  let opp_min := first_opponent_reach_steps (intercept_table wm) in
  let self_min := self_reach_steps (intercept_table wm) in
  let all_min := py_min3 tm_min opp_min self_min in
  let current_ball_pos :=
    mkVector2D (x (position (ball wm))) (y (position (ball wm))) in
  let current_ball_vel :=
    mkVector2D (x (velocity (ball wm))) (y (velocity (ball wm))) in
  inertia_n_step_point current_ball_pos current_ball_vel all_min 0.96.

(** Lines 106-121 of [update]: the value assigned to [current_situation].
    [is] on members of a protocol enumeration compares the member values. *)
Definition classify (wm : WorldModel) (ball_pos : Vector2D) : Situation :=
  let tm_min := first_teammate_reach_steps (intercept_table wm) in
  let opp_min := first_opponent_reach_steps (intercept_table wm) in
  let self_min := self_reach_steps (intercept_table wm) in
  if bool_decide (game_mode_type wm = PlayOn) then
    let thr := 0 in
    let thr := if Qltb 0 (_x ball_pos) then thr + 1 else thr in
    let thr := if 6 <? uniform_number (self wm) then thr + 1 else thr in
    if py_min2 tm_min self_min <? opp_min + thr then Offense_Situation
    else Defense_Situation
  else if bool_decide (game_mode_type wm = PenaltyKick_) then
    PenaltyKick_Situation
  else if bool_decide (game_mode_type wm ≠ PlayOn)
          && bool_decide (game_mode_side wm = our_side wm) then
    OurSetPlay_Situation
  else
    OppSetPlay_Situation.

(** Lines 123-142 of [update]: the assignment to [current_formation_file];
    when no branch is taken the attribute keeps its value. *)
Definition select_formation_file (wm : WorldModel) (this : FormationStrategy)
  : result FormationStrategy :=
  if bool_decide (current_situation this = Offense_Situation) then
    let* F := _get_current_formation this in
    Ok (set_current_formation_file (offense_formation F) this)
  else if bool_decide (current_situation this = Defense_Situation) then
    let* F := _get_current_formation this in
    Ok (set_current_formation_file (defense_formation F) this)
  else if bool_decide (game_mode_type wm ∈ [KickIn_; CornerKick_]) then
    if bool_decide (game_mode_side wm = our_side wm) then
      let* F := _get_current_formation this in
      Ok (set_current_formation_file (kickin_our_formation F) this)
    else
      let* F := _get_current_formation this in
      Ok (set_current_formation_file (setplay_opp_formation F) this)
  else if bool_decide (game_mode_type wm ∈ [GoalKick_; GoalieCatch_]) then
    if bool_decide (game_mode_side wm = our_side wm) then
      let* F := _get_current_formation this in
      Ok (set_current_formation_file (goalie_kick_our_formation F) this)
    else
      let* F := _get_current_formation this in
      Ok (set_current_formation_file (goalie_kick_opp_formation F) this)
  else if bool_decide (game_mode_type wm ∈ [BeforeKickOff; AfterGoal_]) then
    let* F := _get_current_formation this in
    Ok (set_current_formation_file (before_kick_off_formation F) this)
  else if bool_decide (current_situation this = OppSetPlay_Situation) then
    let* F := _get_current_formation this in
    Ok (set_current_formation_file (setplay_opp_formation F) this)
  else if bool_decide (current_situation this = OurSetPlay_Situation) then
    let* F := _get_current_formation this in
    Ok (set_current_formation_file (setplay_our_formation F) this)
  else
    Ok this.

(** Lines 144-153 of [update].  The table that [get_poses] hands out is the
    table of the formation definition, and the loops overwrite [_x] of the
    positions in it in place, so the formation definition and [_poses] hold
    the same clamped table afterwards. *)
Definition solve_positions (wm : WorldModel) (ball_pos : Vector2D)
  (this : FormationStrategy) : FormationStrategy :=
  let cff := current_formation_file this in
  let f := FormationFile_update ball_pos (objects this cff) in
  let poses := FormationFile_get_poses f in
  let poses :=
    if bool_decide (game_mode_type wm ∈ [BeforeKickOff; AfterGoal_]) then
      clamp_x (-0.5) <$> poses
    else
      let offside_line := offside_line_x wm in
      clamp_x (offside_line - 0.5) <$> poses in
  {| formations := formations this;
     selected_formation_name := selected_formation_name this;
     _poses := PosesDict poses;
     current_situation := current_situation this;
     current_formation_file := cff;
     objects := <[cff := {| ff_rule := ff_rule f; ff_poses := poses |}]>
                  (objects this) |}.

(** [FormationStrategy.update(agent)], on [agent.wm] (lines 89-155). *)
Definition update (wm : WorldModel) (this : FormationStrategy)
  : result FormationStrategy :=
  let this := set_selected_formation_name (_set_formation (Some wm)) this in
  let ball_pos := predicted_ball wm in
  let this := set_current_situation (classify wm ball_pos) this in
  let* this := select_formation_file wm this in
  Ok (solve_positions wm ball_pos this).

(** [get_position(uniform_number)]: [self._poses[uniform_number]]; a [set]
    is not subscriptable. *)
Definition get_position (unum : Z) (this : FormationStrategy)
  : result Vector2D :=
  match _poses this with
  | PosesSet _ => Raise TypeError
  | PosesDict d => getitem d unum
  end.

(** [get_offside_line] (lines 175-183); a [set] has no method [values].  The
    list of the x-coordinates is sorted before it is read, so the order in
    which [values()] yields the positions does not show in the result. *)
Definition get_offside_line (this : FormationStrategy) : result Q :=
  match _poses this with
  | PosesSet _ => Raise AttributeError
  | PosesDict d =>
      let home_poses_x := map (fun pos => _x pos) (map snd (map_to_list d)) in
      let home_poses_x := py_sort home_poses_x in
      if (1 <? length home_poses_x)%nat then index home_poses_x 1
      else if (length home_poses_x =? 1)%nat then index home_poses_x 0
      else Ok 0.0%Q
  end.

(** The states of a strategy object: the one its constructor returns, and
    every state a returning call of [update] leads to. *)
Inductive reachable : FormationStrategy -> Prop :=
| reachable_init this :
    FormationStrategy_init = Ok this -> reachable this
| reachable_update wm this this' :
    reachable this -> update wm this = Ok this' -> reachable this'.

End Strategy.

(** ** The specification's view of the selector and of the clamp *)

(** The eight contexts of a formation set (section 3 of the specification). *)
Inductive FormationKey : Type :=
| KBeforeKickOff
| KDefense
| KOffense
| KGoalieKickOurs
| KGoalieKickOpp
| KKickInOurs
| KSetPlayOurs
| KSetPlayOpp.

Definition formation_of (k : FormationKey) (F : Formation) : FormationFileRef :=
  match k with
  | KBeforeKickOff => before_kick_off_formation F
  | KDefense => defense_formation F
  | KOffense => offense_formation F
  | KGoalieKickOurs => goalie_kick_our_formation F
  | KGoalieKickOpp => goalie_kick_opp_formation F
  | KKickInOurs => kickin_our_formation F
  | KSetPlayOurs => setplay_our_formation F
  | KSetPlayOpp => setplay_opp_formation F
  end.

(** The selector as section 4.3 of the specification words it: the seven
    steps in order, [None] when no step matches.  [own] tells whether the
    set-play side is the own side. *)
Definition FormationSelector (sit : Situation) (gm : GameModeType) (own : bool)
  : option FormationKey :=
  match sit with
  | Offense_Situation => Some KOffense
  | Defense_Situation => Some KDefense
  | _ =>
      match gm with
      | KickIn_ | CornerKick_ => Some (if own then KKickInOurs else KSetPlayOpp)
      | GoalKick_ | GoalieCatch_ =>
          Some (if own then KGoalieKickOurs else KGoalieKickOpp)
      | BeforeKickOff | AfterGoal_ => Some KBeforeKickOff
      | _ =>
          match sit with
          | OppSetPlay_Situation => Some KSetPlayOpp
          | OurSetPlay_Situation => Some KSetPlayOurs
          | _ => None
          end
      end
  end.

(** The legality bound of a cycle (section 4.4 of the specification). *)
Definition legality_bound (wm : WorldModel) : Q :=
  match game_mode_type wm with
  | BeforeKickOff | AfterGoal_ => - (1 # 2)
  | _ => offside_line_x wm - (1 # 2)
  end.

(** The threshold of the open-play rule (section 4.2 of the specification). *)
Definition threshold (predicted_ball_x : Q) (own_roster_number : Z) : Z :=
  0 + (if Qlt_le_dec 0 predicted_ball_x then 1 else 0)
    + (if Z_gt_dec own_roster_number 6 then 1 else 0).

(** ** Class [DecisionMaker] *)

(** A [PlayerAction] message: the one the dispatcher builds itself, and the
    messages of the strategy collaborators, which the dispatcher never
    inspects. *)
Inductive PlayerAction : Type :=
| helios_goalie
| other_action (n : nat).

(** Modelled from the spec: the agent ([src/interfaces/IAgent.py] is not among
    the sources) carries the world snapshot and the queue of action requests;
    [add_action] enqueues one request. *)
Record IAgent : Type := { wm : WorldModel; actions : list PlayerAction }.

Definition add_action (a : PlayerAction) (agent : IAgent) : IAgent :=
  {| wm := wm agent; actions := actions agent ++ [a] |}.

(** Interface [IDecisionMaker]: one method, [make_decision(agent)]. *)
Class IDecisionMaker (D : Type) : Type :=
  make_decision : D -> IAgent -> IAgent.

(** Modelled from the spec: the contract of a strategy collaborator
    ([play_on_decision_maker.py], [set_play_decision_maker.py] and
    [penalty_decision_maker.py] are not among the sources): a call enqueues
    exactly one action request. *)
Class OneRequest (D : Type) `{IDecisionMaker D} : Prop :=
  one_request : forall (d : D) (agent : IAgent),
    exists a, actions (make_decision d agent) = actions agent ++ [a].

Section Dispatcher.

Context {P S K : Type}.
Context `{!IDecisionMaker P, !IDecisionMaker S, !IDecisionMaker K}.

Record DecisionMaker : Type := {
  play_on_decision_maker : P;
  set_play_decision_maker : S;
  penalty_decision_maker : K
}.

(** [DecisionMaker.make_decision(agent)] (lines 30-38). *)
Definition DecisionMaker_make_decision (this : DecisionMaker) (agent : IAgent)
  : IAgent :=
  if is_goalie (self (wm agent)) then
    add_action helios_goalie agent
  else if bool_decide (game_mode_type (wm agent) = PlayOn) then
    make_decision (play_on_decision_maker this) agent
  else if is_penalty_kick_mode (wm agent) then
    make_decision (penalty_decision_maker this) agent
  else
    make_decision (set_play_decision_maker this) agent.

#[global] Instance DecisionMaker_IDecisionMaker : IDecisionMaker DecisionMaker :=
  DecisionMaker_make_decision.

(** The four behaviours of section 4.1 of the specification. *)
Inductive Behavior : Type :=
| GoalieAction
| OpenPlayStrategy
| PenaltyStrategy
| SetPlayStrategy.

(** The dispatcher's choice as the specification words it. *)
Definition dispatch (agent : IAgent) : Behavior :=
  match is_goalie (self (wm agent)), game_mode_type (wm agent),
        is_penalty_kick_mode (wm agent) with
  | true, _, _ => GoalieAction
  | false, PlayOn, _ => OpenPlayStrategy
  | false, _, true => PenaltyStrategy
  | false, _, false => SetPlayStrategy
  end.

Definition run (this : DecisionMaker) (b : Behavior) (agent : IAgent) : IAgent :=
  match b with
  | GoalieAction => add_action helios_goalie agent
  | OpenPlayStrategy => make_decision (play_on_decision_maker this) agent
  | PenaltyStrategy => make_decision (penalty_decision_maker this) agent
  | SetPlayStrategy => make_decision (set_play_decision_maker this) agent
  end.

End Dispatcher.

Arguments DecisionMaker P S K : clear implicits.

(** ** Instances of the collaborators, to run the code on concrete cycles *)

(** The inertial projection in closed form:
    [pos + vel * (1 - decay ^ n_step) / (1 - decay)]. *)
Definition inertia_n_step_point (pos vel : Vector2D) (n_step : Z) (decay : Q)
  : Vector2D :=
  let k := ((1 - decay ^ n_step) / (1 - decay))%Q in
  mkVector2D (_x pos + _x vel * k) (_y pos + _y vel * k).

(** A formation definition whose table does not depend on the ball. *)
Definition static_file (t : gmap Z Vector2D) : FormationFile :=
  {| ff_rule := fun _ prev => prev; ff_poses := t |}.

Definition table_of (xs : list Q) : gmap Z Vector2D :=
  list_to_map (zip (map Z.of_nat (seq 1 (length xs)))
                   (map (fun v => mkVector2D v 0) xs)).

Definition sample_table : gmap Z Vector2D :=
  table_of [-50; -12; -12; -10; -10; 0.3; -1; 0.3; 12; 20; 30]%Q.

Definition sample_files (path : string) : FormationFile :=
  static_file sample_table.

Definition mk_wm (tm opp me : Z) (bx by_ vx vy_ : Q) (gm : GameModeType)
  (gm_side own : Side) (unum : Z) (goalie : bool) (offside : Q) : WorldModel :=
  {| intercept_table :=
       {| first_teammate_reach_steps := tm; first_opponent_reach_steps := opp;
          self_reach_steps := me |};
     ball := {| position := {| x := bx; y := by_ |};
                velocity := {| x := vx; y := vy_ |} |};
     game_mode_type := gm; game_mode_side := gm_side; our_side := own;
     self := {| uniform_number := unum; is_goalie := goalie |};
     offside_line_x := offside;
     is_penalty_kick_mode := bool_decide (gm = PenaltyKick_) |}.

(** Scenario A, B, C and E of the specification. *)
Definition wm_A : WorldModel :=
  mk_wm 3 5 4 10 0 0 0 PlayOn UNKNOWN LEFT 5 false 20.
Definition wm_B : WorldModel :=
  mk_wm 5 3 6 (-4) 0 0 0 PlayOn UNKNOWN LEFT 8 false 20.
Definition wm_C : WorldModel :=
  mk_wm 5 3 6 0 0 0 0 BeforeKickOff LEFT LEFT 8 false 20.
Definition wm_E : WorldModel :=
  mk_wm 5 3 6 0 0 0 0 PenaltyKick_ RIGHT LEFT 8 false 20.

(** A strategy object holding a given position table. *)
Definition with_poses (d : gmap Z Vector2D) : FormationStrategy :=
  {| formations := _read_formations ∅;
     selected_formation_name := "4-3-3-cyrus-base";
     _poses := PosesDict d;
     current_situation := Offense_Situation;
     current_formation_file :=
       offense_formation (Formation_init "src/formations/4-3-3-cyrus-base");
     objects := sample_files |}.

Definition run_cycles (wms : list WorldModel) : result FormationStrategy :=
  foldl (fun r w => bind r (update inertia_n_step_point w))
        (FormationStrategy_init sample_files) wms.

(** The object that the constructor returns for [sample_files]. *)
Definition sample_strategy : FormationStrategy :=
  {| formations := _read_formations ∅;
     selected_formation_name := "4-3-3-cyrus-base";
     _poses := PosesSet (map (fun i => (i, mkVector2D 0 0)) (range 11));
     current_situation := Offense_Situation;
     current_formation_file :=
       offense_formation (Formation_init "src/formations/4-3-3-cyrus-base");
     objects := sample_files |}.

(** A strategy collaborator that enqueues one request carrying its tag. *)
Record Tagged : Type := { tag : nat }.

#[global] Instance Tagged_IDecisionMaker : IDecisionMaker Tagged :=
  fun d agent => add_action (other_action (tag d)) agent.

Definition sample_decision_maker : DecisionMaker Tagged Tagged Tagged :=
  {| play_on_decision_maker := {| tag := 1 |};
     set_play_decision_maker := {| tag := 2 |};
     penalty_decision_maker := {| tag := 3 |} |}.

Definition agent_of (w : WorldModel) : IAgent := {| wm := w; actions := [] |}.

(** The formation set that [_set_formation] selects. *)
Definition active_formation : Formation :=
  Formation_init "src/formations/4-3-3-cyrus-base".

(** What every state of a strategy object satisfies: the catalog holds the
    selected formation set, and the current formation definition is one of
    its eight files. *)
Definition catalog_inv (this : FormationStrategy) : Prop :=
  formations this !! "4-3-3-cyrus-base" = Some active_formation
  /\ selected_formation_name this = "4-3-3-cyrus-base"
  /\ current_formation_file this ∈ formation_files active_formation.

(** The bound that the two loops of lines 147-153 clamp to. *)
Definition clamp_bound (wm : WorldModel) : Q :=
  if bool_decide (game_mode_type wm ∈ [BeforeKickOff; AfterGoal_]) then (-0.5)%Q
  else (offside_line_x wm - 0.5)%Q.

(** Successive calls of [update], one per cycle, from a given state; the
    first exception ends the run. *)
Fixpoint cycles (inertia : Vector2D -> Vector2D -> Z -> Q -> Vector2D)
  (wms : list WorldModel) (this : FormationStrategy)
  : result FormationStrategy :=
  match wms with
  | [] => Ok this
  | w :: ws => let* t := update inertia w this in cycles inertia ws t
  end.

(** Successive calls of [make_decision] on the same agent. *)
Fixpoint decisions {P S K : Type}
  `{!IDecisionMaker P, !IDecisionMaker S, !IDecisionMaker K}
  (n : nat) (this : DecisionMaker P S K) (agent : IAgent) : IAgent :=
  match n with
  | O => agent
  | Datatypes.S m => decisions m this (DecisionMaker_make_decision this agent)
  end.


(** * Properties *)

(** ** Numbers *)

Lemma Qltb_lt (a b : Q) : Qltb a b = true <-> (a < b)%Q.
Proof.
  unfold Qltb. rewrite negb_true_iff. split.
  - intros H. apply Qnot_le_lt. intros Hle.
    apply Qle_bool_iff in Hle. congruence.
  - intros H. destruct (Qle_bool b a) eqn:E; [|reflexivity].
    apply Qle_bool_iff in E. exfalso. exact (Qlt_not_le _ _ H E).
Qed.

Lemma Qltb_ge (a b : Q) : Qltb a b = false <-> (b <= a)%Q.
Proof.
  unfold Qltb. rewrite negb_false_iff. apply Qle_bool_iff.
Qed.

Lemma py_min_le_l (a b : Q) : (py_min a b <= a)%Q.
Proof.
  unfold py_min. destruct (Qltb b a) eqn:E.
  - apply Qltb_lt in E. apply Qlt_le_weak, E.
  - apply Qle_refl.
Qed.

Lemma py_min_le_r (a b : Q) : (py_min a b <= b)%Q.
Proof.
  unfold py_min. destruct (Qltb b a) eqn:E.
  - apply Qle_refl.
  - apply Qltb_ge in E. exact E.
Qed.

Lemma py_min_Qmin (a b : Q) : (py_min a b == Qmin a b)%Q.
Proof.
  unfold py_min. destruct (Qltb b a) eqn:E.
  - apply Qltb_lt in E. symmetry. apply Q.min_r. apply Qlt_le_weak, E.
  - apply Qltb_ge in E. symmetry. apply Q.min_l. exact E.
Qed.

(** Clamping a position that was clamped already changes nothing, so a
    position object that sits under two keys is not affected by being visited
    twice. *)
Lemma clamp_x_idem (b : Q) (pos : Vector2D) :
  clamp_x b (clamp_x b pos) = clamp_x b pos.
Proof.
  unfold clamp_x. simpl. f_equal.
  unfold py_min at 1. destruct (Qltb b (py_min (_x pos) b)) eqn:E; [|reflexivity].
  apply Qltb_lt in E. exfalso.
  exact (Qlt_not_le _ _ E (py_min_le_r _ _)).
Qed.

Lemma py_min2_min (a b : Z) : py_min2 a b = Z.min a b.
Proof. unfold py_min2. destruct (Z.ltb_spec b a); lia. Qed.

Lemma py_min3_min (a b c : Z) : py_min3 a b c = Z.min (Z.min a b) c.
Proof. unfold py_min3. now rewrite !py_min2_min. Qed.

(** ** The strategy object *)

Section StrategyFacts.

Variable inertia : Vector2D -> Vector2D -> Z -> Q -> Vector2D.
Variable ff_init : string -> FormationFile.

Lemma read_formations_active :
  _read_formations ∅ !! "4-3-3-cyrus-base" = Some active_formation.
Proof.
  unfold _read_formations.
  rewrite lookup_insert_ne by discriminate.
  now rewrite lookup_insert_eq.
Qed.

(** The constructor returns, and this is the object it returns. *)
Lemma init_returns :
  FormationStrategy_init ff_init =
  Ok {| formations := _read_formations ∅;
        selected_formation_name := "4-3-3-cyrus-base";
        _poses := PosesSet (map (fun i => (i, mkVector2D 0 0)) (range 11));
        current_situation := Offense_Situation;
        current_formation_file := offense_formation active_formation;
        objects := ff_init |}.
Proof.
  unfold FormationStrategy_init, getitem, _set_formation. cbn zeta.
  now rewrite read_formations_active.
Qed.

Lemma init_inv (this : FormationStrategy) :
  FormationStrategy_init ff_init = Ok this -> catalog_inv this.
Proof.
  rewrite init_returns. intros [= <-]. unfold catalog_inv. cbn.
  split; [apply read_formations_active|]. split; [reflexivity|].
  unfold formation_files. set_solver.
Qed.

Lemma formation_of_files (k : FormationKey) (F : Formation) :
  formation_of k F ∈ formation_files F.
Proof. destruct k; unfold formation_files; cbn; set_solver. Qed.

(** The selection block: it returns whenever the catalog holds the selected
    set, it writes [current_formation_file] only, and the new value is the one
    the specification's selector names. *)
Lemma select_formation_file_spec (wm : WorldModel) (this : FormationStrategy)
  (F : Formation) :
  formations this !! selected_formation_name this = Some F ->
  exists ref,
    select_formation_file wm this = Ok (set_current_formation_file ref this)
    /\ ref = match FormationSelector (current_situation this) (game_mode_type wm)
                     (bool_decide (game_mode_side wm = our_side wm)) with
             | Some k => formation_of k F
             | None => current_formation_file this
             end.
Proof.
  intros HF. unfold select_formation_file, _get_current_formation, getitem.
  rewrite HF. cbn [bind].
  destruct this as [fs name ps s cff objs]. cbn in *.
  destruct s, (game_mode_type wm),
    (bool_decide (game_mode_side wm = our_side wm)); cbn;
    eexists; split; reflexivity.
Qed.

(** The bound that the clamping loops of [update] use is the legality bound
    of the cycle. *)
Lemma solve_positions_poses (wm : WorldModel) (ball_pos : Vector2D)
  (this : FormationStrategy) :
  exists b,
    (b == legality_bound wm)%Q
    /\ _poses (solve_positions wm ball_pos this) =
       PosesDict (clamp_x b <$>
         FormationFile_get_poses
           (FormationFile_update ball_pos
              (objects this (current_formation_file this)))).
Proof.
  unfold solve_positions, legality_bound. cbn [_poses].
  destruct (game_mode_type wm); cbn;
    eexists; (split; [|reflexivity]); try reflexivity; lra.
Qed.

(** One cycle, as a whole: from a state that satisfies the catalog invariant
    [update] returns, and the fields of the new state are these. *)
Lemma update_spec (wm : WorldModel) (this : FormationStrategy) :
  catalog_inv this ->
  exists this' b,
    update inertia wm this = Ok this'
    /\ formations this' = formations this
    /\ selected_formation_name this' = "4-3-3-cyrus-base"
    /\ current_situation this' = classify wm (predicted_ball inertia wm)
    /\ current_formation_file this' =
         match FormationSelector (classify wm (predicted_ball inertia wm))
                 (game_mode_type wm)
                 (bool_decide (game_mode_side wm = our_side wm)) with
         | Some k => formation_of k active_formation
         | None => current_formation_file this
         end
    /\ (b == legality_bound wm)%Q
    /\ _poses this' =
         PosesDict (clamp_x b <$>
           FormationFile_get_poses
             (FormationFile_update (predicted_ball inertia wm)
                (objects this (current_formation_file this')))).
Proof.
  intros (Hcat & _ & _). unfold update.
  set (this1 := set_current_situation _ _).
  destruct (select_formation_file_spec wm this1 active_formation)
    as (ref & Hsel & Href); [exact Hcat|].
  rewrite Hsel. cbn [bind].
  destruct (solve_positions_poses wm (predicted_ball inertia wm)
              (set_current_formation_file ref this1)) as (b & Hb & Hposes).
  exists (solve_positions wm (predicted_ball inertia wm)
            (set_current_formation_file ref this1)), b.
  split; [reflexivity|]. rewrite Hposes. subst ref. cbn.
  repeat split; try reflexivity. exact Hb.
Qed.

Lemma update_inv (wm : WorldModel) (this this' : FormationStrategy) :
  catalog_inv this -> update inertia wm this = Ok this' -> catalog_inv this'.
Proof.
  intros Hinv Hup.
  destruct (update_spec wm this Hinv)
    as (this2 & b & Hup2 & Hfs & Hname & _ & Hcff & _).
  rewrite Hup in Hup2. injection Hup2 as <-.
  destruct Hinv as (Hcat & _ & Hin).
  unfold catalog_inv. rewrite Hfs, Hname, Hcff.
  split; [exact Hcat|]. split; [reflexivity|].
  destruct (FormationSelector _ _ _); [apply formation_of_files | exact Hin].
Qed.

(** The invariant holds in every reachable state (induction on the cycles). *)
Lemma reachable_inv (this : FormationStrategy) :
  reachable inertia ff_init this -> catalog_inv this.
Proof.
  induction 1 as [this Hinit | wm this this' _ IH Hup].
  - exact (init_inv this Hinit).
  - exact (update_inv wm this this' IH Hup).
Qed.

End StrategyFacts.

(** ** The situation classifier *)

(** C1.  In a cycle whose game mode is open play, [update] returns and the
    situation it stores is [Offense_Situation] when
    [min(teammate_reach, self_reach) < opponent_reach + threshold] and
    [Defense_Situation] otherwise; the threshold adds one when the predicted
    ball point has a positive x and one when the roster number is above 6,
    and the predicted ball point is the inertial projection of the ball over
    [min(teammate_reach, opponent_reach, self_reach)] steps with decay 0.96. *)
Theorem open_play_situation
  (inertia : Vector2D -> Vector2D -> Z -> Q -> Vector2D)
  (ff_init : string -> FormationFile)
  (wm : WorldModel) (this : FormationStrategy) :
  reachable inertia ff_init this ->
  game_mode_type wm = PlayOn ->
  let tm := first_teammate_reach_steps (intercept_table wm) in
  let opp := first_opponent_reach_steps (intercept_table wm) in
  let me := self_reach_steps (intercept_table wm) in
  let predicted :=
    inertia (mkVector2D (x (position (ball wm))) (y (position (ball wm))))
            (mkVector2D (x (velocity (ball wm))) (y (velocity (ball wm))))
            (Z.min (Z.min tm opp) me) 0.96%Q in
  let thr := threshold (_x predicted) (uniform_number (self wm)) in
  exists this',
    update inertia wm this = Ok this'
    /\ (Z.min tm me < opp + thr ->
        current_situation this' = Offense_Situation)
    /\ (~ Z.min tm me < opp + thr ->
        current_situation this' = Defense_Situation).
Proof.
  intros Hreach Hgm tm opp me predicted thr.
  destruct (update_spec inertia wm this (reachable_inv _ _ _ Hreach))
    as (this' & b & Hup & _ & _ & Hsit & _).
  exists this'. split; [exact Hup|]. rewrite Hsit.
  unfold classify, predicted_ball. rewrite Hgm, py_min3_min, py_min2_min.
  cbn [bool_decide decide_rel]. fold tm opp me predicted.
  assert (Hthr : thr =
            (let t := 0 in
             let t := if Qltb 0 (_x predicted) then t + 1 else t in
             if 6 <? uniform_number (self wm) then t + 1 else t)).
  { unfold thr, threshold. cbn zeta.
    destruct (Qlt_le_dec 0 (_x predicted)) as [Hx | Hx],
             (Z_gt_dec (uniform_number (self wm)) 6) as [Hn | Hn].
    - apply Qltb_lt in Hx. rewrite Hx.
      destruct (Z.ltb_spec 6 (uniform_number (self wm))); lia.
    - apply Qltb_lt in Hx. rewrite Hx.
      destruct (Z.ltb_spec 6 (uniform_number (self wm))); lia.
    - apply Qltb_ge in Hx. rewrite Hx.
      destruct (Z.ltb_spec 6 (uniform_number (self wm))); lia.
    - apply Qltb_ge in Hx. rewrite Hx.
      destruct (Z.ltb_spec 6 (uniform_number (self wm))); lia. }
  cbn zeta in Hthr. rewrite <- Hthr.
  destruct (Z.ltb_spec (Z.min tm me) (opp + thr)); split; intros; (reflexivity || lia).
Qed.

(** C7.  In a cycle whose game mode is not open play, [update] returns and
    stores [PenaltyKick_Situation] when the game mode is penalty kick,
    whatever the set-play side; otherwise it stores [OurSetPlay_Situation]
    exactly when the set-play side is the own side and [OppSetPlay_Situation]
    exactly when it is not; the stored situation is one value of the five. *)
Theorem set_play_situation
  (inertia : Vector2D -> Vector2D -> Z -> Q -> Vector2D)
  (ff_init : string -> FormationFile)
  (wm : WorldModel) (this : FormationStrategy) :
  reachable inertia ff_init this ->
  game_mode_type wm <> PlayOn ->
  exists this',
    update inertia wm this = Ok this'
    /\ (game_mode_type wm = PenaltyKick_ ->
        current_situation this' = PenaltyKick_Situation)
    /\ (game_mode_type wm <> PenaltyKick_ ->
        (current_situation this' = OurSetPlay_Situation
         <-> game_mode_side wm = our_side wm)
        /\ (current_situation this' = OppSetPlay_Situation
            <-> game_mode_side wm <> our_side wm))
    /\ (exists! s,
          s ∈ [OurSetPlay_Situation; OppSetPlay_Situation; Defense_Situation;
               Offense_Situation; PenaltyKick_Situation]
          /\ current_situation this' = s).
Proof.
  intros Hreach Hgm.
  destruct (update_spec inertia wm this (reachable_inv _ _ _ Hreach))
    as (this' & b & Hup & _ & _ & Hsit & _).
  exists this'. split; [exact Hup|]. rewrite Hsit. unfold classify.
  rewrite (bool_decide_eq_false_2 _ Hgm), (bool_decide_eq_true_2 _ Hgm).
  cbn [andb]. split; [|split].
  - intros Hpk. now rewrite (bool_decide_eq_true_2 _ Hpk).
  - intros Hpk. rewrite (bool_decide_eq_false_2 _ Hpk).
    destruct (decide (game_mode_side wm = our_side wm)) as [Hs | Hs].
    + rewrite (bool_decide_eq_true_2 _ Hs). split; split; try done.
    + rewrite (bool_decide_eq_false_2 _ Hs). split; split; try done.
  - match goal with |- exists! s, _ /\ ?v = s => exists v end.
    split.
    + split; [|reflexivity].
      repeat case_bool_decide; set_solver.
    + now intros s' [_ <-].
Qed.

(** ** The formation selector *)

(** C2.  In every cycle [update] returns, and the formation definition it
    leaves selected is the one the seven-step precedence names in the active
    formation set: offense, else defense, else by kick-in or corner kick, else
    by goal kick or goalie catch, else before kick-off or after goal, else the
    opponent's set play, else our set play; when no step matches it is the
    one selected before the cycle. *)
Theorem formation_selection
  (inertia : Vector2D -> Vector2D -> Z -> Q -> Vector2D)
  (ff_init : string -> FormationFile)
  (wm : WorldModel) (this : FormationStrategy) :
  reachable inertia ff_init this ->
  exists this' F,
    update inertia wm this = Ok this'
    /\ _get_current_formation this' = Ok F
    /\ current_formation_file this' =
         match FormationSelector (current_situation this') (game_mode_type wm)
                 (bool_decide (game_mode_side wm = our_side wm)) with
         | Some k => formation_of k F
         | None => current_formation_file this
         end.
Proof.
  intros Hreach.
  pose proof (reachable_inv _ _ _ Hreach) as Hinv.
  destruct (update_spec inertia wm this Hinv)
    as (this' & b & Hup & Hfs & Hname & Hsit & Hcff & _).
  exists this', active_formation. split; [exact Hup|].
  split.
  - unfold _get_current_formation, getitem. rewrite Hfs, Hname.
    destruct Hinv as (-> & _). reflexivity.
  - rewrite Hsit. exact Hcff.
Qed.

(** C4.  In a cycle whose game mode is penalty kick, [update] returns, the
    situation it stores is [PenaltyKick_Situation], no step of the selector
    matches (the selection block leaves the object as it is), and the
    selected formation definition is the one of the preceding cycle. *)
Theorem penalty_kick_carryover
  (inertia : Vector2D -> Vector2D -> Z -> Q -> Vector2D)
  (ff_init : string -> FormationFile)
  (wm : WorldModel) (this : FormationStrategy) :
  reachable inertia ff_init this ->
  game_mode_type wm = PenaltyKick_ ->
  exists this',
    update inertia wm this = Ok this'
    /\ current_situation this' = PenaltyKick_Situation
    /\ FormationSelector (current_situation this') (game_mode_type wm)
         (bool_decide (game_mode_side wm = our_side wm)) = None
    /\ (forall t, current_situation t = PenaltyKick_Situation ->
                  select_formation_file wm t = Ok t)
    /\ current_formation_file this' = current_formation_file this.
Proof.
  intros Hreach Hgm.
  destruct (update_spec inertia wm this (reachable_inv _ _ _ Hreach))
    as (this' & b & Hup & _ & _ & Hsit & Hcff & _).
  assert (Hpk : classify wm (predicted_ball inertia wm) = PenaltyKick_Situation).
  { unfold classify. now rewrite Hgm. }
  rewrite Hpk in Hsit, Hcff. rewrite Hgm in Hcff. cbn in Hcff.
  exists this'. split; [exact Hup|]. split; [exact Hsit|].
  split; [now rewrite Hsit, Hgm|]. split; [|exact Hcff].
  intros t Ht. unfold select_formation_file. now rewrite Ht, Hgm.
Qed.

(** C10.  The constructor returns; in every state from construction onward
    the active formation set is in the catalog and the selected formation
    definition is one of its eight files; in the state the constructor
    returns it is the offense formation of that set, so a first cycle in
    penalty-kick mode retains that formation. *)
Theorem current_formation_file_defined
  (inertia : Vector2D -> Vector2D -> Z -> Q -> Vector2D)
  (ff_init : string -> FormationFile)
  (this : FormationStrategy) :
  reachable inertia ff_init this ->
  (exists this0, FormationStrategy_init ff_init = Ok this0)
  /\ exists F,
      _get_current_formation this = Ok F
      /\ current_formation_file this ∈ formation_files F
      /\ (FormationStrategy_init ff_init = Ok this ->
          current_formation_file this = offense_formation F
          /\ forall wm, game_mode_type wm = PenaltyKick_ ->
               exists this', update inertia wm this = Ok this'
                 /\ current_formation_file this' = offense_formation F).
Proof.
  intros Hreach. split; [eexists; apply init_returns|].
  pose proof (reachable_inv _ _ _ Hreach) as Hinv.
  exists active_formation. split; [|split].
  - unfold _get_current_formation, getitem.
    destruct Hinv as (Hcat & Hname & _). now rewrite Hname, Hcat.
  - apply Hinv.
  - intros Hinit.
    assert (Hoff : current_formation_file this = offense_formation active_formation).
    { rewrite init_returns in Hinit. now injection Hinit as <-. }
    split; [exact Hoff|]. intros wm Hgm.
    destruct (update_spec inertia wm this Hinv)
      as (this' & b & Hup & _ & _ & _ & Hcff & _).
    exists this'. split; [exact Hup|]. rewrite Hcff, <- Hoff.
    unfold classify. now rewrite Hgm.
Qed.

(** ** The legality clamp *)

(** C3.  In every cycle [update] returns and stores a dictionary in which
    every position has an x-coordinate of at most -0.5 when the game mode is
    before kick-off or after goal, and of at most [offside_line_x - 0.5] in
    every other game mode. *)
Theorem positions_within_bound
  (inertia : Vector2D -> Vector2D -> Z -> Q -> Vector2D)
  (ff_init : string -> FormationFile)
  (wm : WorldModel) (this : FormationStrategy) :
  reachable inertia ff_init this ->
  exists this' d,
    update inertia wm this = Ok this'
    /\ _poses this' = PosesDict d
    /\ forall n pos, d !! n = Some pos ->
         (_x pos <= legality_bound wm)%Q
         /\ (game_mode_type wm = BeforeKickOff \/ game_mode_type wm = AfterGoal_ ->
             (_x pos <= -0.5)%Q)
         /\ (game_mode_type wm <> BeforeKickOff ->
             game_mode_type wm <> AfterGoal_ ->
             (_x pos <= offside_line_x wm - 0.5)%Q).
Proof.
  intros Hreach.
  destruct (update_spec inertia wm this (reachable_inv _ _ _ Hreach))
    as (this' & b & Hup & _ & _ & _ & _ & Hb & Hposes).
  eexists this', _. split; [exact Hup|]. split; [exact Hposes|].
  intros n pos Hn. rewrite lookup_fmap in Hn.
  destruct (_ !! n) as [raw|]; [|discriminate].
  injection Hn as <-. cbn [clamp_x _x].
  assert (Hle : (py_min (_x raw) b <= legality_bound wm)%Q).
  { pose proof (py_min_le_r (_x raw) b). lra. }
  split; [exact Hle|]. revert Hle. unfold legality_bound.
  destruct (game_mode_type wm); intros Hle; split;
    try (intros [? | ?]; try discriminate); try (intros ? ?; try congruence);
    lra.
Qed.

(** C9.  In every cycle and for every roster slot of the table that the
    selected formation definition returns, the stored position has the same
    y-coordinate as the returned one and its x-coordinate is the minimum of
    the returned x and the legality bound, hence never above the returned x;
    the stored table has the slots of the returned one. *)
Theorem clamp_is_ceiling
  (inertia : Vector2D -> Vector2D -> Z -> Q -> Vector2D)
  (ff_init : string -> FormationFile)
  (wm : WorldModel) (this : FormationStrategy) :
  reachable inertia ff_init this ->
  exists this' d,
    update inertia wm this = Ok this'
    /\ _poses this' = PosesDict d
    /\ let raw :=
         FormationFile_get_poses
           (FormationFile_update (predicted_ball inertia wm)
              (objects this (current_formation_file this'))) in
       dom d = dom raw
       /\ forall n pos, raw !! n = Some pos ->
            exists pos',
              d !! n = Some pos'
              /\ (_x pos' == Qmin (_x pos) (legality_bound wm))%Q
              /\ (_x pos' <= _x pos)%Q
              /\ _y pos' = _y pos.
Proof.
  intros Hreach.
  destruct (update_spec inertia wm this (reachable_inv _ _ _ Hreach))
    as (this' & b & Hup & _ & _ & _ & _ & Hb & Hposes).
  eexists this', _. split; [exact Hup|]. split; [exact Hposes|].
  cbn zeta. split; [apply dom_fmap_L|].
  intros n pos Hn. exists (clamp_x b pos).
  split; [rewrite lookup_fmap, Hn; reflexivity|].
  cbn [clamp_x _x _y]. split; [|split; [apply py_min_le_l | reflexivity]].
  rewrite py_min_Qmin. apply Q.min_compat; [reflexivity | exact Hb].
Qed.

(** ** The accessors *)

#[local] Instance Qle_total : Total Qle.
Proof.
  intros a b. destruct (Qlt_le_dec a b) as [H | H];
    [left; apply Qlt_le_weak, H | right; exact H].
Qed.

#[local] Instance Qle_transitive : Transitive Qle.
Proof. intros a b c. apply Qle_trans. Qed.

(** The second element of a sorted list of at least two floats is the second
    smallest of them. *)
Lemma py_sort_second (xs : list Q) :
  (1 < length xs)%nat ->
  exists m r rest,
    py_sort xs = m :: r :: rest
    /\ xs ≡ₚ m :: r :: rest
    /\ (m <= r)%Q
    /\ Forall (Qle r) rest.
Proof.
  intros Hlen. unfold py_sort.
  pose proof (StronglySorted_merge_sort Qle xs) as Hsorted.
  pose proof (merge_sort_Permutation Qle xs) as Hperm.
  pose proof (Permutation_length Hperm) as Hl.
  destruct (merge_sort Qle xs) as [|m [|r rest]]; cbn in Hl; try lia.
  exists m, r, rest. split; [reflexivity|]. split; [now symmetry|].
  apply StronglySorted_inv in Hsorted as [Htail Hhead].
  apply StronglySorted_inv in Htail as [_ Hrest].
  split; [|exact Hrest].
  now apply Forall_inv in Hhead.
Qed.

(** C6.  On a position table (a dictionary), [get_offside_line] returns the
    second smallest of the x-coordinates of the positions when there is more
    than one position, the x-coordinate of the position when there is exactly
    one, and 0.0 when there is none. *)
Theorem offside_line_second_smallest
  (this : FormationStrategy) (d : gmap Z Vector2D) :
  _poses this = PosesDict d ->
  let xs := map (fun pos => _x pos) (map snd (map_to_list d)) in
  ((1 < size d)%nat ->
     exists m r rest,
       get_offside_line this = Ok r
       /\ xs ≡ₚ m :: r :: rest
       /\ (m <= r)%Q
       /\ Forall (Qle r) rest)
  /\ (size d = 1%nat ->
      exists n pos, d !! n = Some pos /\ get_offside_line this = Ok (_x pos))
  /\ (size d = 0%nat -> get_offside_line this = Ok 0.0%Q).
Proof.
  intros Hposes xs. unfold get_offside_line. rewrite Hposes. fold xs.
  assert (Hlen : length xs = size d).
  { unfold xs. now rewrite !length_map, length_map_to_list. }
  assert (Hsort : length (py_sort xs) = size d).
  { rewrite <- Hlen. apply Permutation_length, merge_sort_Permutation. }
  rewrite Hsort. split; [|split].
  - intros Hsize. destruct (py_sort_second xs) as (m & r & rest & Hs & Hp & Hm & Hr);
      [lia|].
    exists m, r, rest. split; [|auto].
    destruct (Nat.ltb_spec 1 (size d)); [|lia]. now rewrite Hs.
  - intros Hsize. rewrite Hsize. cbn [Nat.ltb Nat.leb Nat.eqb].
    rewrite <- length_map_to_list in Hsize.
    destruct (map_to_list d) as [|[n pos] [|? ?]] eqn:Hlist; try discriminate.
    exists n, pos. split.
    + apply elem_of_map_to_list. rewrite Hlist. set_solver.
    + subst xs. rewrite ?Hlist. reflexivity.
  - intros Hsize. now rewrite Hsize.
Qed.

(** C8 (what the code does).  The constructor returns an object whose
    [_poses] is the set of the pairs [(i, Vector2D(0, 0))] for [i] in
    [0..10]: [get_position] raises [TypeError] for every slot, slot 11
    included, and [get_offside_line] raises as well; the pairs do not even
    mention slot 11. *)
Theorem get_position_before_first_update (ff_init : string -> FormationFile) :
  exists this s,
    FormationStrategy_init ff_init = Ok this
    /\ _poses this = PosesSet s
    /\ (forall n, get_position n this = Raise TypeError)
    /\ get_position 11 this = Raise TypeError
    /\ get_offside_line this = Raise AttributeError
    /\ 11 ∉ map fst s.
Proof.
  eexists _, _. split; [apply init_returns|]. cbn.
  repeat split.
  rewrite list_elem_of_In. cbn. intuition discriminate.
Qed.

(** ** The dispatcher *)

#[global] Instance Tagged_OneRequest : OneRequest Tagged.
Proof. intros d agent. exists (other_action (tag d)). reflexivity. Qed.

(** C5.  [make_decision] takes the one behaviour that the fixed order names
    (goalie flag, else open play, else penalty-kick mode, else set play), it
    has no error path, and, the collaborators enqueueing one request each, the
    call enqueues exactly one action request. *)
Theorem make_decision_one_branch {P S K : Type}
  `{!IDecisionMaker P, !IDecisionMaker S, !IDecisionMaker K}
  (this : DecisionMaker P S K) (agent : IAgent) :
  OneRequest P -> OneRequest S -> OneRequest K ->
  DecisionMaker_make_decision this agent = run this (dispatch agent) agent
  /\ (is_goalie (self (wm agent)) = true ->
      DecisionMaker_make_decision this agent = add_action helios_goalie agent)
  /\ (is_goalie (self (wm agent)) = false ->
      game_mode_type (wm agent) = PlayOn ->
      DecisionMaker_make_decision this agent =
      make_decision (play_on_decision_maker this) agent)
  /\ (is_goalie (self (wm agent)) = false ->
      game_mode_type (wm agent) <> PlayOn ->
      is_penalty_kick_mode (wm agent) = true ->
      DecisionMaker_make_decision this agent =
      make_decision (penalty_decision_maker this) agent)
  /\ (is_goalie (self (wm agent)) = false ->
      game_mode_type (wm agent) <> PlayOn ->
      is_penalty_kick_mode (wm agent) = false ->
      DecisionMaker_make_decision this agent =
      make_decision (set_play_decision_maker this) agent)
  /\ exists a,
      actions (DecisionMaker_make_decision this agent) = actions agent ++ [a].
Proof.
  intros HP HS HK. unfold DecisionMaker_make_decision, dispatch.
  destruct (is_goalie (self (wm agent))) eqn:Hg.
  - split; [reflexivity|]. do 4 (split; [intros; (reflexivity || discriminate)|]).
    now exists helios_goalie.
  - destruct (decide (game_mode_type (wm agent) = PlayOn)) as [Hgm | Hgm].
    + rewrite (bool_decide_eq_true_2 _ Hgm), Hgm.
      split; [reflexivity|].
      do 4 (split; [intros; (reflexivity || discriminate || congruence)|]).
      apply HP.
    + rewrite (bool_decide_eq_false_2 _ Hgm).
      destruct (is_penalty_kick_mode (wm agent)) eqn:Hpk.
      * split; [destruct (game_mode_type (wm agent)); (reflexivity || congruence)|].
        do 4 (split; [intros; (reflexivity || discriminate || congruence)|]).
        apply HK.
      * split; [destruct (game_mode_type (wm agent)); (reflexivity || congruence)|].
        do 4 (split; [intros; (reflexivity || discriminate || congruence)|]).
        apply HS.
Qed.

(** ** The properties on concrete cycles *)

Lemma sample_strategy_reachable :
  reachable inertia_n_step_point sample_files sample_strategy.
Proof. apply reachable_init. vm_compute. reflexivity. Defined.

(** Scenario A: teammate 3, opponent 5, self 4, roster number 5, ball at rest
    at (10, 0) in open play: the situation is offense. *)
Lemma open_play_situation_witness :
  reachable inertia_n_step_point sample_files sample_strategy
  /\ game_mode_type wm_A = PlayOn
  /\ exists this',
       update inertia_n_step_point wm_A sample_strategy = Ok this'
       /\ current_situation this' = Offense_Situation.
Proof.
  split; [exact sample_strategy_reachable|]. split; [reflexivity|].
  destruct (open_play_situation inertia_n_step_point sample_files wm_A
              sample_strategy sample_strategy_reachable eq_refl)
    as (this' & Hup & Hoff & _).
  exists this'. split; [exact Hup|]. apply Hoff. vm_compute. reflexivity.
Defined.

(** Before kick-off with the set-play side on our side: our set play. *)
Lemma set_play_situation_witness :
  reachable inertia_n_step_point sample_files sample_strategy
  /\ game_mode_type wm_C <> PlayOn
  /\ exists this',
       update inertia_n_step_point wm_C sample_strategy = Ok this'
       /\ current_situation this' = OurSetPlay_Situation.
Proof.
  assert (Hgm : game_mode_type wm_C <> PlayOn) by (vm_compute; discriminate).
  split; [exact sample_strategy_reachable|]. split; [exact Hgm|].
  destruct (set_play_situation inertia_n_step_point sample_files wm_C
              sample_strategy sample_strategy_reachable Hgm)
    as (this' & Hup & _ & Hside & _).
  exists this'. split; [exact Hup|].
  apply Hside; [vm_compute; discriminate | reflexivity].
Defined.

(** Before kick-off: the before-kick-off formation of the active set. *)
Lemma formation_selection_witness :
  reachable inertia_n_step_point sample_files sample_strategy
  /\ exists this',
       update inertia_n_step_point wm_C sample_strategy = Ok this'
       /\ current_formation_file this' =
          "src/formations/4-3-3-cyrus-base/before-kick-off.conf".
Proof.
  split; [exact sample_strategy_reachable|].
  destruct (formation_selection inertia_n_step_point sample_files wm_C
              sample_strategy sample_strategy_reachable)
    as (this' & F & Hup & HF & Hcff).
  exists this'. split; [exact Hup|].
  vm_compute in Hup. injection Hup as <-. reflexivity.
Defined.

(** Scenario E: a penalty kick in the first cycle keeps the formation of the
    constructor. *)
Lemma penalty_kick_carryover_witness :
  reachable inertia_n_step_point sample_files sample_strategy
  /\ game_mode_type wm_E = PenaltyKick_
  /\ exists this',
       update inertia_n_step_point wm_E sample_strategy = Ok this'
       /\ current_situation this' = PenaltyKick_Situation
       /\ current_formation_file this' =
          "src/formations/4-3-3-cyrus-base/offense-formation.conf".
Proof.
  split; [exact sample_strategy_reachable|]. split; [reflexivity|].
  destruct (penalty_kick_carryover inertia_n_step_point sample_files wm_E
              sample_strategy sample_strategy_reachable eq_refl)
    as (this' & Hup & Hsit & _ & _ & Hcff).
  exists this'. split; [exact Hup|]. split; [exact Hsit|].
  rewrite Hcff. reflexivity.
Defined.

Lemma current_formation_file_defined_witness :
  reachable inertia_n_step_point sample_files sample_strategy
  /\ exists F,
       _get_current_formation sample_strategy = Ok F
       /\ current_formation_file sample_strategy ∈ formation_files F.
Proof.
  split; [exact sample_strategy_reachable|].
  destruct (current_formation_file_defined inertia_n_step_point sample_files
              sample_strategy sample_strategy_reachable)
    as (_ & F & HF & Hin & _).
  exists F. split; [exact HF | exact Hin].
Defined.

(** Scenario C: before kick-off every stored x is at most -0.5. *)
Lemma positions_within_bound_witness :
  reachable inertia_n_step_point sample_files sample_strategy
  /\ exists this' d,
       update inertia_n_step_point wm_C sample_strategy = Ok this'
       /\ _poses this' = PosesDict d
       /\ forall n pos, d !! n = Some pos -> (_x pos <= -0.5)%Q.
Proof.
  split; [exact sample_strategy_reachable|].
  destruct (positions_within_bound inertia_n_step_point sample_files wm_C
              sample_strategy sample_strategy_reachable)
    as (this' & d & Hup & Hposes & Hall).
  exists this', d. split; [exact Hup|]. split; [exact Hposes|].
  intros n pos Hn. apply (Hall n pos Hn). left. reflexivity.
Defined.

Lemma clamp_is_ceiling_witness :
  reachable inertia_n_step_point sample_files sample_strategy
  /\ exists this' d,
       update inertia_n_step_point wm_C sample_strategy = Ok this'
       /\ _poses this' = PosesDict d
       /\ dom d = dom (FormationFile_get_poses
                         (FormationFile_update
                            (predicted_ball inertia_n_step_point wm_C)
                            (objects sample_strategy
                               (current_formation_file this')))).
Proof.
  split; [exact sample_strategy_reachable|].
  destruct (clamp_is_ceiling inertia_n_step_point sample_files wm_C
              sample_strategy sample_strategy_reachable)
    as (this' & d & Hup & Hposes & Hdom & _).
  exists this', d. split; [exact Hup|]. split; [exact Hposes | exact Hdom].
Defined.

(** Scenario D: the x-values -5, -3, -1, 0, 2, 4, 6, 8, 9, 10, 11 in some
    order of the slots give the offside reference -3. *)
Lemma offside_line_second_smallest_witness :
  let d := table_of [4; 11; -3; -1; 0; 2; -5; 6; 8; 9; 10]%Q in
  _poses (with_poses d) = PosesDict d
  /\ exists m r rest,
       get_offside_line (with_poses d) = Ok r
       /\ (m <= r)%Q /\ Forall (Qle r) rest
       /\ get_offside_line (with_poses d) = Ok (-3)%Q.
Proof.
  intros d. split; [reflexivity|].
  destruct (offside_line_second_smallest (with_poses d) d eq_refl)
    as (Hmany & _ & _).
  destruct Hmany as (m & r & rest & Hr & _ & Hm & Hrest);
    [vm_compute; lia|].
  exists m, r, rest. split; [exact Hr|]. split; [exact Hm|].
  split; [exact Hrest|]. vm_compute. reflexivity.
Defined.

(** A field player in open play: the open-play strategy, one request. *)
Lemma make_decision_one_branch_witness :
  OneRequest Tagged
  /\ DecisionMaker_make_decision sample_decision_maker (agent_of wm_A) =
     make_decision (play_on_decision_maker sample_decision_maker) (agent_of wm_A)
  /\ exists a,
       actions (DecisionMaker_make_decision sample_decision_maker (agent_of wm_A))
       = [a].
Proof.
  split; [exact Tagged_OneRequest|].
  destruct (make_decision_one_branch sample_decision_maker (agent_of wm_A)
              Tagged_OneRequest Tagged_OneRequest Tagged_OneRequest)
    as (_ & _ & Hplay & _ & _ & Hone).
  split; [apply Hplay; reflexivity | exact Hone].
Defined.

(** Scenario B: teammate 5, opponent 3, self 6, roster number 8, ball behind
    the centre line: defense. *)
Example scenario_B :
  bind (run_cycles [wm_B]) (fun t => Ok (current_situation t))
  = Ok Defense_Situation.
Proof. vm_compute. reflexivity. Qed.

(** Scenario C: the raw x of slot 6 is 0.3; before kick-off the stored x is
    -0.5, and in open play with the offside line at 20 it stays 0.3. *)
Example scenario_C :
  bind (run_cycles [wm_C]) (get_position 6) = Ok (mkVector2D (-0.5) 0)
  /\ bind (run_cycles [wm_A]) (get_position 6) = Ok (mkVector2D 0.3 0).
Proof. split; vm_compute; reflexivity. Qed.

(** A penalty kick after a kick-off cycle keeps the before-kick-off formation;
    after the first cycle every slot from 1 to 11 of the sample table has a
    position and slot 12 has none. *)
Example scenario_E_after_kick_off :
  bind (run_cycles [wm_C; wm_E]) (fun t => Ok (current_formation_file t))
  = Ok "src/formations/4-3-3-cyrus-base/before-kick-off.conf"
  /\ bind (run_cycles [wm_C]) (get_position 11) = Ok (mkVector2D (-0.5) 0)
  /\ bind (run_cycles [wm_C]) (get_position 12) = Raise KeyError.
Proof. repeat split; vm_compute; reflexivity. Qed.

(** * Further properties of the strategy object *)

Section MoreStrategyFacts.

Variable inertia : Vector2D -> Vector2D -> Z -> Q -> Vector2D.
Variable ff_init : string -> FormationFile.

(** The selection block writes [current_formation_file] only. *)
Lemma select_formation_file_frame (wm : WorldModel)
  (this this' : FormationStrategy) :
  select_formation_file wm this = Ok this' ->
  exists ref, this' = set_current_formation_file ref this.
Proof.
  unfold select_formation_file, _get_current_formation, getitem.
  destruct this as [fs name ps s cff objs]. cbn.
  destruct (fs !! name) as [F|]; cbn;
    repeat (case_bool_decide; cbn); intros [= <-]; eexists; reflexivity.
Qed.

Lemma solve_positions_clamp_bound (wm : WorldModel) (ball_pos : Vector2D)
  (this : FormationStrategy) :
  _poses (solve_positions wm ball_pos this) =
  PosesDict (clamp_x (clamp_bound wm) <$>
    FormationFile_get_poses
      (FormationFile_update ball_pos
         (objects this (current_formation_file this)))).
Proof.
  unfold solve_positions, clamp_bound. cbn [_poses].
  now case_bool_decide.
Qed.

(** What a returning call of [update] stores, from any state. *)
Lemma update_returns_poses (wm : WorldModel) (this this' : FormationStrategy) :
  update inertia wm this = Ok this' ->
  _poses this' =
    PosesDict (clamp_x (clamp_bound wm) <$>
      FormationFile_get_poses
        (FormationFile_update (predicted_ball inertia wm)
           (objects this (current_formation_file this'))))
  /\ current_situation this' = classify wm (predicted_ball inertia wm)
  /\ formations this' = formations this
  /\ forall r, r <> current_formation_file this' ->
       objects this' r = objects this r.
Proof.
  unfold update.
  destruct (select_formation_file wm _) as [t|e] eqn:Hsel; [|discriminate].
  cbn [bind]. intros [= <-].
  apply select_formation_file_frame in Hsel as [ref ->].
  rewrite solve_positions_clamp_bound. cbn.
  repeat split. intros r Hr. now rewrite fn_lookup_insert_ne.
Qed.

(** The selection block on any object: the catalog is read only when a
    step of the selector matches. *)
Lemma select_formation_file_cases (wm : WorldModel) (this : FormationStrategy) :
  select_formation_file wm this =
  match FormationSelector (current_situation this) (game_mode_type wm)
          (bool_decide (game_mode_side wm = our_side wm)) with
  | Some k =>
      let* F := _get_current_formation this in
      Ok (set_current_formation_file (formation_of k F) this)
  | None => Ok this
  end.
Proof.
  unfold select_formation_file.
  destruct (current_situation this), (game_mode_type wm),
    (bool_decide (game_mode_side wm = our_side wm)); reflexivity.
Qed.

(** The situation that the classifier yields, by game mode. *)
Lemma classify_by_mode (wm : WorldModel) (ball_pos : Vector2D) :
  match game_mode_type wm with
  | PlayOn =>
      classify wm ball_pos = Offense_Situation
      \/ classify wm ball_pos = Defense_Situation
  | PenaltyKick_ => classify wm ball_pos = PenaltyKick_Situation
  | _ =>
      classify wm ball_pos =
      if bool_decide (game_mode_side wm = our_side wm)
      then OurSetPlay_Situation else OppSetPlay_Situation
  end.
Proof.
  unfold classify.
  destruct (game_mode_type wm); repeat case_bool_decide; try congruence;
    cbn; auto.
  destruct (_ <? _); auto.
Qed.

Lemma selector_none (wm : WorldModel) (ball_pos : Vector2D) :
  FormationSelector (classify wm ball_pos) (game_mode_type wm)
    (bool_decide (game_mode_side wm = our_side wm)) = None
  <-> game_mode_type wm = PenaltyKick_.
Proof.
  pose proof (classify_by_mode wm ball_pos) as Hc.
  destruct (game_mode_type wm);
    try destruct Hc as [Hc | Hc]; rewrite Hc;
    destruct (bool_decide (game_mode_side wm = our_side wm)); cbn;
    split; congruence.
Qed.

Lemma get_position_after_update_aux (wm : WorldModel)
  (this this' : FormationStrategy) (n : Z) :
  update inertia wm this = Ok this' ->
  get_position n this' =
  match FormationFile_get_poses
          (FormationFile_update (predicted_ball inertia wm)
             (objects this (current_formation_file this'))) !! n with
  | Some pos => Ok (clamp_x (clamp_bound wm) pos)
  | None => Raise KeyError
  end.
Proof.
  intros Hup. apply update_returns_poses in Hup as (Hposes & _).
  unfold get_position, getitem. rewrite Hposes, lookup_fmap.
  now destruct (_ !! n).
Qed.

(** The value that [get_offside_line] reads out of the sorted list: always a
    value, an element of the list unless the list is empty. *)
Lemma offside_value (xs : list Q) :
  exists r,
    (let l := py_sort xs in
     if (1 <? length l)%nat then index l 1
     else if (length l =? 1)%nat then index l 0
     else Ok 0.0%Q) = Ok r
    /\ (xs <> [] -> r ∈ xs)
    /\ (xs = [] -> r = 0.0%Q).
Proof.
  pose proof (merge_sort_Permutation Qle xs) as Hperm. fold (py_sort xs) in Hperm.
  cbn zeta. destruct (py_sort xs) as [|a [|b l]] eqn:Hs.
  - apply Permutation_nil in Hperm. subst xs.
    exists 0.0%Q. cbn. repeat split; congruence.
  - exists a. cbn. split; [reflexivity|]. split.
    + intros _. rewrite <- Hperm. set_solver.
    + intros ->. apply Permutation_sym, Permutation_nil in Hperm. discriminate.
  - exists b. cbn. split; [reflexivity|]. split.
    + intros _. rewrite <- Hperm. set_solver.
    + intros ->. apply Permutation_sym, Permutation_nil in Hperm. discriminate.
Qed.

Lemma get_offside_line_dict (this : FormationStrategy) (d : gmap Z Vector2D) :
  _poses this = PosesDict d ->
  exists r,
    get_offside_line this = Ok r
    /\ (d <> ∅ -> exists n pos, d !! n = Some pos /\ r = _x pos)
    /\ (d = ∅ -> r = 0.0%Q).
Proof.
  intros Hposes. unfold get_offside_line. rewrite Hposes.
  destruct (offside_value (map (fun pos => _x pos) (map snd (map_to_list d))))
    as (r & Hr & Hin & Hnil).
  exists r. split; [exact Hr|]. split.
  - intros Hne.
    assert (Hxs : map (fun pos => _x pos) (map snd (map_to_list d)) <> []).
    { intros Hxs. apply Hne, map_to_list_empty_iff.
      destruct (map_to_list d); [reflexivity | discriminate]. }
    specialize (Hin Hxs). rewrite list_elem_of_In in Hin.
    apply in_map_iff in Hin as (pos & <- & Hin).
    apply in_map_iff in Hin as ([n pos'] & <- & Hin).
    exists n, pos'. split; [|reflexivity].
    apply elem_of_map_to_list, list_elem_of_In, Hin.
  - intros ->. apply Hnil. now rewrite map_to_list_empty.
Qed.



End MoreStrategyFacts.

(** ** The catalog and the exceptions of [update] *)

(** The catalog is what [_read_formations] loaded, in every state: the three
    formation sets and no other, with [4-3-3-cyrus-base] selected. *)
Theorem catalog_is_immutable
  (inertia : Vector2D -> Vector2D -> Z -> Q -> Vector2D)
  (ff_init : string -> FormationFile) (this : FormationStrategy) :
  reachable inertia ff_init this ->
  formations this = _read_formations ∅
  /\ selected_formation_name this = "4-3-3-cyrus-base"
  /\ forall name : string,
       is_Some (formations this !! name)
       <-> name ∈ ["4-3-3"; "4-3-3-cyrus-base"; "4-3-3-helios-base"].
Proof.
  intros Hreach.
  assert (Hfs : formations this = _read_formations ∅).
  { induction Hreach as [this Hinit | wm this this' Hreach IH Hup].
    - rewrite init_returns in Hinit. now injection Hinit as <-.
    - apply update_returns_poses in Hup as (_ & _ & -> & _). exact IH. }
  split; [exact Hfs|]. split; [apply (reachable_inv _ _ _ Hreach)|].
  intros name. rewrite Hfs. unfold _read_formations. split.
  - intros [F HF].
    destruct (decide (name = "4-3-3-helios-base")) as [-> | N1]; [set_solver|].
    rewrite lookup_insert_ne in HF by congruence.
    destruct (decide (name = "4-3-3-cyrus-base")) as [-> | N2]; [set_solver|].
    rewrite lookup_insert_ne in HF by congruence.
    destruct (decide (name = "4-3-3")) as [-> | N3]; [set_solver|].
    rewrite lookup_insert_ne in HF by congruence.
    now rewrite lookup_empty in HF.
  - intros Hin.
    rewrite !elem_of_cons, elem_of_nil in Hin.
    destruct Hin as [-> | [-> | [-> | []]]]; eexists; simplify_map_eq; reflexivity.
Qed.



(** ** Situation and formation, by game mode *)

(** The situation tells the game mode apart: it is offense or defense exactly
    in open play and penalty kick exactly in penalty-kick mode; in every
    other mode it is our or their set play, by the set-play side alone. *)
Theorem situation_by_game_mode
  (inertia : Vector2D -> Vector2D -> Z -> Q -> Vector2D)
  (wm : WorldModel) (this this' : FormationStrategy) :
  update inertia wm this = Ok this' ->
  (current_situation this' = Offense_Situation
   \/ current_situation this' = Defense_Situation
   <-> game_mode_type wm = PlayOn)
  /\ (current_situation this' = PenaltyKick_Situation
      <-> game_mode_type wm = PenaltyKick_)
  /\ (game_mode_type wm <> PlayOn -> game_mode_type wm <> PenaltyKick_ ->
      current_situation this' =
      if bool_decide (game_mode_side wm = our_side wm)
      then OurSetPlay_Situation else OppSetPlay_Situation).
Proof.
  intros Hup. apply update_returns_poses in Hup as (_ & -> & _).
  pose proof (classify_by_mode wm (predicted_ball inertia wm)) as Hc.
  destruct (game_mode_type wm);
    try destruct Hc as [Hc | Hc]; rewrite Hc;
    destruct (bool_decide (game_mode_side wm = our_side wm));
    (split; [split; [intros [? | ?]; congruence | (auto || congruence)]|]);
    (split; [split; congruence|]); congruence.
Qed.

(** In open play the two modifiers of the threshold decide ties only: the
    situation is offense whenever the team reaches the ball strictly before
    the opponent and defense whenever the opponent is ahead by two steps or
    more, whatever the predicted ball point and the roster number; at equal
    reach one modifier suffices for offense, one step behind both are needed. *)
Theorem open_play_margins
  (inertia : Vector2D -> Vector2D -> Z -> Q -> Vector2D)
  (wm : WorldModel) (this this' : FormationStrategy) :
  update inertia wm this = Ok this' ->
  game_mode_type wm = PlayOn ->
  let tm := first_teammate_reach_steps (intercept_table wm) in
  let opp := first_opponent_reach_steps (intercept_table wm) in
  let me := self_reach_steps (intercept_table wm) in
  let ahead := (0 < _x (predicted_ball inertia wm))%Q in
  let forward := 6 < uniform_number (self wm) in
  (Z.min tm me < opp -> current_situation this' = Offense_Situation)
  /\ (opp + 2 <= Z.min tm me -> current_situation this' = Defense_Situation)
  /\ (Z.min tm me = opp ->
      (current_situation this' = Offense_Situation <-> ahead \/ forward))
  /\ (Z.min tm me = opp + 1 ->
      (current_situation this' = Offense_Situation <-> ahead /\ forward)).
Proof.
  intros Hup Hgm tm opp me ahead forward.
  apply update_returns_poses in Hup as (_ & -> & _).
  unfold classify. rewrite Hgm, py_min2_min.
  cbn [bool_decide decide_rel]. fold tm opp me. cbn zeta.
  unfold ahead, forward.
  destruct (Qltb 0 (_x (predicted_ball inertia wm))) eqn:Hx;
    [apply Qltb_lt in Hx | apply Qltb_ge in Hx];
    destruct (Z.ltb_spec 6 (uniform_number (self wm))) as [Hn | Hn];
    match goal with
    | |- context [Z.min tm me <? ?b] =>
        destruct (Z.ltb_spec (Z.min tm me) b) as [Hlt | Hlt]
    end;
    repeat split; intros;
    try reflexivity; try discriminate; try lia; try tauto;
    try (exfalso; lra);
    try match goal with
        | H : _ \/ _ |- _ => destruct H; exfalso; (lia || lra)
        | H : _ /\ _ |- _ => destruct H; exfalso; (lia || lra)
        end.
Qed.

(** Outside open play the game mode and the set-play side alone fix the
    formation: the situation tests of the last two steps of the selector are
    tests of the side.  In open play it is the offense or the defense
    formation, by the situation; in penalty-kick mode it is the previous one. *)
Theorem formation_by_game_mode
  (inertia : Vector2D -> Vector2D -> Z -> Q -> Vector2D)
  (ff_init : string -> FormationFile)
  (wm : WorldModel) (this : FormationStrategy) :
  reachable inertia ff_init this ->
  exists this',
    update inertia wm this = Ok this'
    /\ let own := bool_decide (game_mode_side wm = our_side wm) in
       let F := active_formation in
       current_formation_file this' =
       match game_mode_type wm with
       | PlayOn =>
           if bool_decide (current_situation this' = Offense_Situation)
           then offense_formation F else defense_formation F
       | KickIn_ | CornerKick_ =>
           if own then kickin_our_formation F else setplay_opp_formation F
       | GoalKick_ | GoalieCatch_ =>
           if own then goalie_kick_our_formation F
           else goalie_kick_opp_formation F
       | BeforeKickOff | AfterGoal_ => before_kick_off_formation F
       | PenaltyKick_ => current_formation_file this
       | OtherGameMode _ =>
           if own then setplay_our_formation F else setplay_opp_formation F
       end.
Proof.
  intros Hreach.
  destruct (update_spec inertia wm this (reachable_inv _ _ _ Hreach))
    as (this' & b & Hup & _ & _ & Hsit & Hcff & _).
  exists this'. split; [exact Hup|]. cbn zeta. rewrite Hcff, Hsit.
  pose proof (classify_by_mode wm (predicted_ball inertia wm)) as Hc.
  destruct (game_mode_type wm);
    try destruct Hc as [Hc | Hc]; rewrite Hc;
    destruct (bool_decide (game_mode_side wm = our_side wm)); reflexivity.
Qed.

(** However many penalty-kick cycles follow one another, the formation
    selected before the first of them is still selected after the last. *)
Theorem penalty_cycles_keep_formation
  (inertia : Vector2D -> Vector2D -> Z -> Q -> Vector2D)
  (ff_init : string -> FormationFile)
  (wms : list WorldModel) (this : FormationStrategy) :
  reachable inertia ff_init this ->
  Forall (fun w => game_mode_type w = PenaltyKick_) wms ->
  exists this',
    cycles inertia wms this = Ok this'
    /\ current_formation_file this' = current_formation_file this.
Proof.
  intros Hreach Hall. apply reachable_inv in Hreach.
  revert this Hreach. induction Hall as [|w ws Hw _ IH]; intros this Hinv.
  - exists this. split; reflexivity.
  - destruct (update_spec inertia w this Hinv)
      as (t & b & Hup & _ & _ & _ & Hcff & _).
    destruct (IH t (update_inv inertia w this t Hinv Hup)) as (this' & Hrun & Hkeep).
    exists this'. cbn [cycles]. rewrite Hup. cbn [bind].
    split; [exact Hrun|]. rewrite Hkeep, Hcff.
    pose proof (proj2 (selector_none w (predicted_ball inertia w)) Hw) as Hnone.
    now rewrite Hnone.
Qed.

(** A cycle that sees the same world again selects the same formation and the
    same situation again. *)
Theorem repeated_cycle_is_stable
  (inertia : Vector2D -> Vector2D -> Z -> Q -> Vector2D)
  (ff_init : string -> FormationFile)
  (wm : WorldModel) (this : FormationStrategy) :
  reachable inertia ff_init this ->
  exists t1 t2,
    update inertia wm this = Ok t1
    /\ update inertia wm t1 = Ok t2
    /\ current_situation t2 = current_situation t1
    /\ current_formation_file t2 = current_formation_file t1.
Proof.
  intros Hreach. apply reachable_inv in Hreach.
  destruct (update_spec inertia wm this Hreach)
    as (t1 & b1 & Hup1 & _ & _ & Hsit1 & Hcff1 & _).
  destruct (update_spec inertia wm t1 (update_inv inertia wm this t1 Hreach Hup1))
    as (t2 & b2 & Hup2 & _ & _ & Hsit2 & Hcff2 & _).
  exists t1, t2. split; [exact Hup1|]. split; [exact Hup2|].
  split; [congruence|]. rewrite Hcff2, Hcff1.
  now destruct (FormationSelector _ _ _).
Qed.

(** ** The position table after a cycle *)

(** After a returning [update], [get_position] answers for exactly the slots
    of the table that the selected formation definition returned, with the
    clamped position, and raises [KeyError] for every other slot; it never
    raises [TypeError] again. *)
Theorem get_position_after_update
  (inertia : Vector2D -> Vector2D -> Z -> Q -> Vector2D)
  (wm : WorldModel) (this this' : FormationStrategy) (n : Z) :
  update inertia wm this = Ok this' ->
  get_position n this' =
  match FormationFile_get_poses
          (FormationFile_update (predicted_ball inertia wm)
             (objects this (current_formation_file this'))) !! n with
  | Some pos => Ok (clamp_x (clamp_bound wm) pos)
  | None => Raise KeyError
  end.
Proof.
  apply get_position_after_update_aux.
Qed.

(** The clamp is exact: a returned position whose x is within the bound is
    stored as it is, and one whose x is beyond the bound is stored with x
    equal to the bound, -0.5 or [offside_line_x - 0.5]. *)
Theorem clamp_is_exact
  (inertia : Vector2D -> Vector2D -> Z -> Q -> Vector2D)
  (wm : WorldModel) (this this' : FormationStrategy) (n : Z) (pos : Vector2D) :
  update inertia wm this = Ok this' ->
  FormationFile_get_poses
    (FormationFile_update (predicted_ball inertia wm)
       (objects this (current_formation_file this'))) !! n = Some pos ->
  ((_x pos <= clamp_bound wm)%Q -> get_position n this' = Ok pos)
  /\ ((clamp_bound wm < _x pos)%Q ->
      get_position n this' = Ok (mkVector2D (clamp_bound wm) (_y pos))).
Proof.
  intros Hup Hn.
  rewrite (get_position_after_update_aux inertia wm this this' n Hup), Hn.
  unfold clamp_x, py_min. split; intros Hle.
  - apply Qltb_ge in Hle. rewrite Hle. now destruct pos.
  - apply Qltb_lt in Hle. now rewrite Hle.
Qed.

(** On a position table [get_offside_line] never raises; unless the table is
    empty its result is the x-coordinate of a position that [get_position]
    returns, and on the empty table it is 0.0. *)
Theorem offside_line_is_a_stored_x
  (this : FormationStrategy) (d : gmap Z Vector2D) :
  _poses this = PosesDict d ->
  exists r,
    get_offside_line this = Ok r
    /\ (d <> ∅ ->
        exists n pos, get_position n this = Ok pos /\ r = _x pos)
    /\ (d = ∅ -> r = 0.0%Q).
Proof.
  intros Hposes.
  destruct (get_offside_line_dict this d Hposes) as (r & Hr & Hin & Hnil).
  exists r. split; [exact Hr|]. split; [|exact Hnil].
  intros Hne. destruct (Hin Hne) as (n & pos & Hn & ->).
  exists n, pos. split; [|reflexivity].
  unfold get_position, getitem. now rewrite Hposes, Hn.
Qed.

(** After a cycle the offside reference line is within the legality bound of
    the cycle unless the formation definition returned an empty table; on an
    empty table it is 0.0, which no bound applies to. *)
Theorem offside_line_within_bound
  (inertia : Vector2D -> Vector2D -> Z -> Q -> Vector2D)
  (ff_init : string -> FormationFile)
  (wm : WorldModel) (this : FormationStrategy) :
  reachable inertia ff_init this ->
  exists this' r,
    update inertia wm this = Ok this'
    /\ get_offside_line this' = Ok r
    /\ let raw :=
         FormationFile_get_poses
           (FormationFile_update (predicted_ball inertia wm)
              (objects this (current_formation_file this'))) in
       (raw <> ∅ -> (r <= legality_bound wm)%Q)
       /\ (raw = ∅ -> r = 0.0%Q).
Proof.
  intros Hreach.
  destruct (update_spec inertia wm this (reachable_inv _ _ _ Hreach))
    as (this' & b & Hup & _ & _ & _ & _ & Hb & Hposes).
  destruct (get_offside_line_dict this' _ Hposes) as (r & Hr & Hin & Hnil).
  exists this', r. split; [exact Hup|]. split; [exact Hr|]. cbn zeta. split.
  - intros Hne. destruct Hin as (n & pos & Hn & ->).
    { intros Hempty. apply Hne. now apply fmap_empty_inv in Hempty. }
    rewrite lookup_fmap in Hn.
    destruct (_ !! n) as [p|]; [|discriminate]. injection Hn as <-.
    cbn [clamp_x _x]. pose proof (py_min_le_r (_x p) b). lra.
  - intros Hempty. apply Hnil. rewrite Hempty. apply fmap_empty.
Qed.

(** Re-running the clamping loop with the same bound changes nothing, so a
    table that reaches [update] already clamped is stored as it is. *)
Theorem clamp_twice_is_clamp_once (b : Q) (d : gmap Z Vector2D) :
  clamp_x b <$> (clamp_x b <$> d) = clamp_x b <$> d.
Proof.
  rewrite <- map_fmap_compose. apply map_fmap_ext.
  intros n pos _. apply clamp_x_idem.
Qed.

(** ** What a cycle leaves alone *)

(** A cycle updates one formation definition, the selected one: every other
    formation object is as it was, and so is the catalog. *)
Theorem update_touches_selected_file_only
  (inertia : Vector2D -> Vector2D -> Z -> Q -> Vector2D)
  (wm : WorldModel) (this this' : FormationStrategy) :
  update inertia wm this = Ok this' ->
  formations this' = formations this
  /\ forall r, r <> current_formation_file this' ->
       objects this' r = objects this r.
Proof.
  intros Hup. apply update_returns_poses in Hup as (_ & _ & Hfs & Hobj).
  split; [exact Hfs | exact Hobj].
Qed.

(** The situation, the position table and the selected name of the previous
    cycle are overwritten without being read: two objects that agree on the
    catalog, on the selected formation definition and on the formation
    objects are taken to the same state, exception included. *)
Theorem update_overwrites_cycle_state
  (inertia : Vector2D -> Vector2D -> Z -> Q -> Vector2D)
  (wm : WorldModel) (this1 this2 : FormationStrategy) :
  formations this1 = formations this2 ->
  current_formation_file this1 = current_formation_file this2 ->
  objects this1 = objects this2 ->
  update inertia wm this1 = update inertia wm this2.
Proof.
  destruct this1 as [fs1 n1 p1 s1 c1 o1], this2 as [fs2 n2 p2 s2 c2 o2].
  cbn. intros -> -> ->. unfold update.
  rewrite !select_formation_file_cases. cbn.
  destruct (FormationSelector _ _ _); [|reflexivity].
  unfold _get_current_formation, getitem. cbn.
  now destruct (fs2 !! _set_formation (Some wm)).
Qed.

(** ** Formation sets *)

Lemma append_inj_r (p a b : string) : p +:+ a = p +:+ b -> a = b.
Proof. induction p as [|c p IH]; cbn; [auto|]. intros [= H]. auto. Qed.

(** The eight formation definitions of a formation set are eight different
    files, whatever the directory of the set. *)
Theorem formation_files_distinct (path : string) :
  NoDup (formation_files (Formation_init path)).
Proof.
  change (formation_files (Formation_init path)) with
    ((fun suffix => path +:+ suffix) <$>
       [ "/before-kick-off.conf"; "/defense-formation.conf";
         "/offense-formation.conf"; "/goalie-kick-opp-formation.conf";
         "/goalie-kick-our-formation.conf"; "/kickin-our-formation.conf";
         "/setplay-opp-formation.conf"; "/setplay-our-formation.conf" ]).
  apply NoDup_fmap_2; [intros a b; apply append_inj_r|].
  repeat (apply NoDup_cons_2;
          [rewrite ?elem_of_cons, elem_of_nil; intuition discriminate|]).
  apply NoDup_nil_2.
Qed.

(** ** Successive decisions *)

(** The queue of action requests only grows at its end: [n] calls of
    [make_decision] leave the requests that were queued in front, in order,
    and add [n] requests, the collaborators enqueueing one request each. *)
Theorem decisions_enqueue_n {P S K : Type}
  `{!IDecisionMaker P, !IDecisionMaker S, !IDecisionMaker K}
  (n : nat) (this : DecisionMaker P S K) (agent : IAgent) :
  OneRequest P -> OneRequest S -> OneRequest K ->
  exists l,
    length l = n
    /\ actions (decisions n this agent) = actions agent ++ l.
Proof.
  intros HP HS HK. revert agent. induction n as [|n IH]; intros agent.
  - exists []. split; [reflexivity|]. cbn. now rewrite app_nil_r.
  - assert (Hone : exists a,
              actions (DecisionMaker_make_decision this agent)
              = actions agent ++ [a]).
    { unfold DecisionMaker_make_decision.
      destruct (is_goalie _); [now exists helios_goalie|].
      case_bool_decide; [apply HP|].
      destruct (is_penalty_kick_mode _); [apply HK | apply HS]. }
    destruct Hone as (a & Ha).
    destruct (IH (DecisionMaker_make_decision this agent)) as (l & Hl & Hrun).
    exists (a :: l). split; [cbn; lia|].
    cbn [decisions]. rewrite Hrun, Ha, <- app_assoc. reflexivity.
Qed.

(** ** The further properties on concrete cycles *)

Lemma sample_update (wm : WorldModel) :
  exists this', update inertia_n_step_point wm sample_strategy = Ok this'.
Proof.
  destruct (update_spec inertia_n_step_point wm sample_strategy
              (reachable_inv _ _ _ sample_strategy_reachable))
    as (this' & _ & Hup & _).
  exists this'. exact Hup.
Defined.

Lemma catalog_is_immutable_witness :
  reachable inertia_n_step_point sample_files sample_strategy
  /\ is_Some (formations sample_strategy !! "4-3-3-helios-base")
  /\ ~ is_Some (formations sample_strategy !! "4-4-2").
Proof.
  split; [exact sample_strategy_reachable|].
  destruct (catalog_is_immutable inertia_n_step_point sample_files
              sample_strategy sample_strategy_reachable) as (_ & _ & Hdom).
  split.
  - apply Hdom. rewrite !elem_of_cons. auto.
  - intros Hin. apply Hdom in Hin.
    rewrite !elem_of_cons, elem_of_nil in Hin. intuition discriminate.
Defined.


Lemma situation_by_game_mode_witness :
  exists this',
    update inertia_n_step_point wm_E sample_strategy = Ok this'
    /\ current_situation this' = PenaltyKick_Situation.
Proof.
  destruct (sample_update wm_E) as (this' & Hup).
  exists this'. split; [exact Hup|].
  destruct (situation_by_game_mode inertia_n_step_point wm_E sample_strategy
              this' Hup) as (_ & Hpk & _).
  apply Hpk. reflexivity.
Defined.

Lemma open_play_margins_witness :
  exists this',
    update inertia_n_step_point wm_A sample_strategy = Ok this'
    /\ game_mode_type wm_A = PlayOn
    /\ current_situation this' = Offense_Situation.
Proof.
  destruct (sample_update wm_A) as (this' & Hup).
  exists this'. split; [exact Hup|]. split; [reflexivity|].
  destruct (open_play_margins inertia_n_step_point wm_A sample_strategy this'
              Hup eq_refl) as (Hoff & _).
  apply Hoff. vm_compute. reflexivity.
Defined.

Lemma formation_by_game_mode_witness :
  reachable inertia_n_step_point sample_files sample_strategy
  /\ exists this',
       update inertia_n_step_point wm_C sample_strategy = Ok this'
       /\ current_formation_file this' =
          before_kick_off_formation active_formation.
Proof.
  split; [exact sample_strategy_reachable|].
  destruct (formation_by_game_mode inertia_n_step_point sample_files wm_C
              sample_strategy sample_strategy_reachable) as (this' & Hup & Hcff).
  exists this'. split; [exact Hup | exact Hcff].
Defined.

Lemma penalty_cycles_keep_formation_witness :
  reachable inertia_n_step_point sample_files sample_strategy
  /\ Forall (fun w => game_mode_type w = PenaltyKick_) [wm_E; wm_E; wm_E]
  /\ exists this',
       cycles inertia_n_step_point [wm_E; wm_E; wm_E] sample_strategy = Ok this'
       /\ current_formation_file this' = current_formation_file sample_strategy.
Proof.
  assert (Hall : Forall (fun w => game_mode_type w = PenaltyKick_)
                   [wm_E; wm_E; wm_E]) by (repeat constructor).
  split; [exact sample_strategy_reachable|]. split; [exact Hall|].
  exact (penalty_cycles_keep_formation inertia_n_step_point sample_files
           [wm_E; wm_E; wm_E] sample_strategy sample_strategy_reachable Hall).
Defined.

Lemma repeated_cycle_is_stable_witness :
  reachable inertia_n_step_point sample_files sample_strategy
  /\ exists t1 t2,
       update inertia_n_step_point wm_B sample_strategy = Ok t1
       /\ update inertia_n_step_point wm_B t1 = Ok t2
       /\ current_formation_file t2 = current_formation_file t1.
Proof.
  split; [exact sample_strategy_reachable|].
  destruct (repeated_cycle_is_stable inertia_n_step_point sample_files wm_B
              sample_strategy sample_strategy_reachable)
    as (t1 & t2 & H1 & H2 & _ & Hcff).
  exists t1, t2. split; [exact H1|]. split; [exact H2 | exact Hcff].
Defined.

(** The sample table has the slots 1 to 11: slot 12 raises [KeyError]. *)
Lemma get_position_after_update_witness :
  exists this',
    update inertia_n_step_point wm_A sample_strategy = Ok this'
    /\ get_position 12 this' = Raise KeyError
    /\ get_position 1 this' = Ok (mkVector2D (-50) 0).
Proof.
  destruct (sample_update wm_A) as (this' & Hup).
  exists this'. split; [exact Hup|]. split.
  - rewrite (get_position_after_update inertia_n_step_point wm_A
               sample_strategy this' 12 Hup). reflexivity.
  - rewrite (get_position_after_update inertia_n_step_point wm_A
               sample_strategy this' 1 Hup). reflexivity.
Defined.

(** Before kick-off slot 6 (raw x 0.3) is stored at the bound and slot 1
    (raw x -50) as it is. *)
Lemma clamp_is_exact_witness :
  exists this',
    update inertia_n_step_point wm_C sample_strategy = Ok this'
    /\ get_position 6 this' = Ok (mkVector2D (-0.5) 0)
    /\ get_position 1 this' = Ok (mkVector2D (-50) 0).
Proof.
  destruct (sample_update wm_C) as (this' & Hup).
  exists this'. split; [exact Hup|]. split.
  - destruct (clamp_is_exact inertia_n_step_point wm_C sample_strategy this' 6
                (mkVector2D 0.3 0) Hup eq_refl) as (_ & Hbeyond).
    apply Hbeyond. vm_compute. reflexivity.
  - destruct (clamp_is_exact inertia_n_step_point wm_C sample_strategy this' 1
                (mkVector2D (-50) 0) Hup eq_refl) as (Hwithin & _).
    apply Hwithin. vm_compute. discriminate.
Defined.

Lemma offside_line_is_a_stored_x_witness :
  let d := table_of [4; 11; -3]%Q in
  _poses (with_poses d) = PosesDict d
  /\ exists r n pos,
       get_offside_line (with_poses d) = Ok r
       /\ get_position n (with_poses d) = Ok pos /\ r = _x pos.
Proof.
  intros d. split; [reflexivity|].
  destruct (offside_line_is_a_stored_x (with_poses d) d eq_refl)
    as (r & Hr & Hin & _).
  destruct Hin as (n & pos & Hn & Hx).
  { intros Hempty. apply (f_equal (fun m => m !! 1)) in Hempty.
    vm_compute in Hempty. discriminate. }
  exists r, n, pos. split; [exact Hr|]. split; [exact Hn | exact Hx].
Defined.

Lemma offside_line_within_bound_witness :
  reachable inertia_n_step_point sample_files sample_strategy
  /\ exists this' r,
       update inertia_n_step_point wm_C sample_strategy = Ok this'
       /\ get_offside_line this' = Ok r
       /\ (r <= legality_bound wm_C)%Q.
Proof.
  split; [exact sample_strategy_reachable|].
  destruct (offside_line_within_bound inertia_n_step_point sample_files wm_C
              sample_strategy sample_strategy_reachable)
    as (this' & r & Hup & Hr & Hle & _).
  exists this', r. split; [exact Hup|]. split; [exact Hr|].
  apply Hle. intros Hempty. apply (f_equal (fun m => m !! 1)) in Hempty.
  vm_compute in Hempty. discriminate.
Defined.

Lemma update_touches_selected_file_only_witness :
  exists this',
    update inertia_n_step_point wm_C sample_strategy = Ok this'
    /\ formations this' = formations sample_strategy.
Proof.
  destruct (sample_update wm_C) as (this' & Hup).
  exists this'. split; [exact Hup|].
  apply (update_touches_selected_file_only inertia_n_step_point wm_C
           sample_strategy this' Hup).
Defined.

(** The object of the constructor and an object that already holds a table
    are taken to the same state. *)
Lemma update_overwrites_cycle_state_witness :
  update inertia_n_step_point wm_A sample_strategy
  = update inertia_n_step_point wm_A (with_poses sample_table).
Proof.
  apply (update_overwrites_cycle_state inertia_n_step_point wm_A
           sample_strategy (with_poses sample_table)); reflexivity.
Defined.

Lemma decisions_enqueue_n_witness :
  OneRequest Tagged
  /\ exists l,
       length l = 3%nat
       /\ actions (decisions 3 sample_decision_maker (agent_of wm_A)) = l.
Proof.
  split; [exact Tagged_OneRequest|].
  exact (decisions_enqueue_n 3 sample_decision_maker (agent_of wm_A)
           Tagged_OneRequest Tagged_OneRequest Tagged_OneRequest).
Defined.
